(** * johnny-cache: generation keys for query caching

    A shallow embedding of [johnny/cache.py] (classes [KeyGen] and
    [KeyHandler]) and the properties of its generation-token scheme.

    Python 2 byte strings are [string]; the cache backend is a finite map
    from keys to stored generation values together with the log of its
    [set] calls; [uuid4] is the stream of values the run draws; [hashlib]'s
    md5 object is the text fed to it so far, and its digest function is a
    parameter of the development, instantiated by [MD5.hexdigest] in the
    concrete runs.  Every function is modelled as its body is written,
    statement by statement. *)

From Stdlib Require Import ZArith Ascii.
From stdpp Require Import gmap strings list fin_maps.

(** ** Python strings *)

Module Py.

(** [len(s)] *)
Definition len (s : string) : nat := String.length s.

(** [s[lo:hi]] for non-negative bounds; [hi = None] is an omitted bound.
    Bounds past the end are clamped, and an empty range gives [""]. *)
Definition slice (s : string) (lo : nat) (hi : option nat) : string :=
  let stop := match hi with Some h => Nat.min h (len s) | None => len s end in
  String.substring lo (stop - lo) s.

(** [str(s)] on a byte string is the string itself. *)
Definition str (s : string) : string := s.

(** ['<prefix>%s' % s] *)
Definition format_s (prefix s : string) : string := prefix +:+ s.

(** Iterating over a string yields its characters as one-character
    strings; this is what [some_list += s] appends. *)
Fixpoint chars (s : string) : list string :=
  match s with
  | EmptyString => []
  | String c s' => String c EmptyString :: chars s'
  end.

End Py.

(** ** hashlib's md5 object

    An md5 object is modelled by the bytes fed to it: [update] appends, and
    [hexdigest] applies the digest function to everything fed so far. *)

Module Hashlib.

Record md5 := Md5 { fed : string }.

Definition new : md5 := Md5 "".
Definition update (m : md5) (data : string) : md5 := Md5 (fed m +:+ data).
Definition hexdigest (H : string → string) (m : md5) : string := H (fed m).

End Hashlib.

(** ** The MD5 digest (RFC 1321)

    The digest that hashlib computes, on 32-bit words held in [Z].  The
    development below is parametric in the digest function; this one
    instantiates it. *)

Module MD5.

Local Open Scope Z_scope.

Definition w32 (x : Z) : Z := x mod 2 ^ 32.
Definition not32 (x : Z) : Z := Z.lxor x 0xffffffff.
Definition rotl (x c : Z) : Z :=
  w32 (Z.lor (Z.shiftl x c) (Z.shiftr x (32 - c))).

Definition shifts : list Z :=
  [7; 12; 17; 22; 7; 12; 17; 22; 7; 12; 17; 22; 7; 12; 17; 22;
   5;  9; 14; 20; 5;  9; 14; 20; 5;  9; 14; 20; 5;  9; 14; 20;
   4; 11; 16; 23; 4; 11; 16; 23; 4; 11; 16; 23; 4; 11; 16; 23;
   6; 10; 15; 21; 6; 10; 15; 21; 6; 10; 15; 21; 6; 10; 15; 21].

Definition sines : list Z :=
  [0xd76aa478; 0xe8c7b756; 0x242070db; 0xc1bdceee;
   0xf57c0faf; 0x4787c62a; 0xa8304613; 0xfd469501;
   0x698098d8; 0x8b44f7af; 0xffff5bb1; 0x895cd7be;
   0x6b901122; 0xfd987193; 0xa679438e; 0x49b40821;
   0xf61e2562; 0xc040b340; 0x265e5a51; 0xe9b6c7aa;
   0xd62f105d; 0x02441453; 0xd8a1e681; 0xe7d3fbc8;
   0x21e1cde6; 0xc33707d6; 0xf4d50d87; 0x455a14ed;
   0xa9e3e905; 0xfcefa3f8; 0x676f02d9; 0x8d2a4c8a;
   0xfffa3942; 0x8771f681; 0x6d9d6122; 0xfde5380c;
   0xa4beea44; 0x4bdecfa9; 0xf6bb4b60; 0xbebfbc70;
   0x289b7ec6; 0xeaa127fa; 0xd4ef3085; 0x04881d05;
   0xd9d4d039; 0xe6db99e5; 0x1fa27cf8; 0xc4ac5665;
   0xf4292244; 0x432aff97; 0xab9423a7; 0xfc93a039;
   0x655b59c3; 0x8f0ccc92; 0xffeff47d; 0x85845dd1;
   0x6fa87e4f; 0xfe2ce6e0; 0xa3014314; 0x4e0811a1;
   0xf7537e82; 0xbd3af235; 0x2ad7d2bb; 0xeb86d391].

Definition regs : Type := Z * Z * Z * Z.

Definition init : regs := (0x67452301, 0xefcdab89, 0x98badcfe, 0x10325476).

(** Step [i] of the 64 on a block [M] of sixteen words. *)
Definition step (M : list Z) (r : regs) (i : nat) : regs :=
  let '(A, B, C, D) := r in
  let '(F, g) :=
    if (i <? 16)%nat then
      (Z.lor (Z.land B C) (Z.land (not32 B) D), i)
    else if (i <? 32)%nat then
      (Z.lor (Z.land D B) (Z.land (not32 D) C), ((5 * i + 1) mod 16)%nat)
    else if (i <? 48)%nat then
      (Z.lxor (Z.lxor B C) D, ((3 * i + 5) mod 16)%nat)
    else
      (Z.lxor C (Z.lor B (not32 D)), ((7 * i) mod 16)%nat) in
  let F := w32 (F + A + nth i sines 0 + nth g M 0) in
  (D, w32 (B + rotl F (nth i shifts 0)), B, C).

Definition block (r : regs) (M : list Z) : regs :=
  let '(a0, b0, c0, d0) := r in
  let '(A, B, C, D) := fold_left (step M) (seq 0 64) r in
  (w32 (a0 + A), w32 (b0 + B), w32 (c0 + C), w32 (d0 + D)).

Definition bytes_of_string (s : string) : list Z :=
  map (λ c, Z.of_N (N_of_ascii c)) (String.list_ascii_of_string s).

(** [n] little-endian bytes of [x] *)
Fixpoint le_bytes (n : nat) (x : Z) : list Z :=
  match n with
  | O => []
  | S n' => x mod 256 :: le_bytes n' (x / 256)
  end.

(** the message, a one bit, zeros up to 56 modulo 64, the bit length *)
Definition pad (msg : list Z) : list Z :=
  let n := Z.of_nat (length msg) in
  msg ++ [0x80] ++ repeat 0 (Z.to_nat ((55 - n) mod 64))
      ++ le_bytes 8 ((8 * n) mod 2 ^ 64).

Fixpoint le_words (n : nat) (bs : list Z) : list Z :=
  match n with
  | O => []
  | S n' =>
      match bs with
      | b0 :: b1 :: b2 :: b3 :: rest =>
          (b0 + 256 * (b1 + 256 * (b2 + 256 * b3))) :: le_words n' rest
      | _ => []
      end
  end.

Fixpoint blocks (n : nat) (ws : list Z) : list (list Z) :=
  match n with
  | O => []
  | S n' =>
      match ws with
      | [] => []
      | _ => take 16 ws :: blocks n' (drop 16 ws)
      end
  end.

Definition digest (s : string) : list Z :=
  let bs := pad (bytes_of_string s) in
  let ws := le_words (length bs) bs in
  let '(a, b, c, d) := fold_left block (blocks (length ws) ws) init in
  le_bytes 4 a ++ le_bytes 4 b ++ le_bytes 4 c ++ le_bytes 4 d.

Definition hex_digit (d : Z) : ascii :=
  match String.get (Z.to_nat d) "0123456789abcdef" with
  | Some c => c
  | None => "0"%char
  end.

Fixpoint hex (bs : list Z) : string :=
  match bs with
  | [] => ""
  | b :: rest => String (hex_digit (b / 16)) (String (hex_digit (b mod 16)) (hex rest))
  end.

Definition hexdigest (s : string) : string := hex (digest s).

End MD5.

(** ** The cache backend and the random source *)

Record world := World {
  cache : gmap string string;      (* what the backend holds *)
  sets  : list (string * string);  (* the backend's set calls, oldest first *)
  drawn : nat                      (* how many uuid4 values were drawn *)
}.

(** [cache_backend.get(key, None)] *)
Definition cache_get (key : string) (w : world) : option string :=
  cache w !! key.

(** [cache_backend.set(key, val)] *)
Definition cache_set (key val : string) (w : world) : world :=
  World (<[key := val]> (cache w)) (sets w ++ [(key, val)]) (drawn w).

Definition empty_world : world := World ∅ [] 0.

(** ** Exceptions and method calls *)

Inductive exn := TypeError | IndexError.

Inductive outcome (A : Type) :=
  | Return (a : A)
  | Raise (e : exn).
Arguments Return {A} a.
Arguments Raise {A} e.

(** The values that appear as call arguments in [KeyHandler]. *)
Inductive pyval :=
  | VStr (s : string)
  | VTuple (ts : list string)
  | VSelf.

(** A method [def m(self, p1, ..., pk)] declares [k + 1] positional
    parameters; a call with another number of arguments raises [TypeError]
    before the body runs. *)
Record method := Def {
  nparams : nat;
  body : list pyval → world → outcome string * world
}.

Definition call (f : method) (args : list pyval) (w : world)
  : outcome string * world :=
  if length args =? nparams f then body f args w else (Raise TypeError, w).

(** [self.m(a1, ..., an)]: the bound method supplies [self] itself. *)
Definition call_bound (f : method) (args : list pyval) (w : world)
  : outcome string * world :=
  call f (VSelf :: args) w.

(** ** class KeyGen *)

Module KeyGen.
Section KeyGen.

(** The digest of hashlib's md5, as a hexadecimal string. *)
Variable md5_hexdigest : string → string.

(** [uuid4 n] is [str(uuid4())] at the [n]-th draw of the run. *)
Variable uuid4 : nat → string.

Definition random_generator (w : world) : string * world :=
  let key := Hashlib.new in
  let rand := Py.str (uuid4 (drawn w)) in
  let key := Hashlib.update key rand in
  (Hashlib.hexdigest md5_hexdigest key,
   World (cache w) (sets w) (S (drawn w))).

Definition gen_table_key (table : string) : string :=
  let table :=
    if 200 <? Py.len table then
      let m := Hashlib.new in
      let m := Hashlib.update m (Py.slice table 200 None) in
      Py.slice table 0 (Some 200) +:+ Hashlib.hexdigest md5_hexdigest m
    else table in
  Py.format_s "jc_table_" (Py.str table).

Definition gen_multi_key (values : list string) : string :=
  let key := Hashlib.new in
  let key := fold_left (λ key v, Hashlib.update key (Py.str v)) values key in
  Py.format_s "jc_multi_" (Hashlib.hexdigest md5_hexdigest key).

End KeyGen.
End KeyGen.

(** ** class KeyHandler *)

Module KeyHandler.
Section KeyHandler.

Variable md5_hexdigest : string → string.
Variable uuid4 : nat → string.

(** [self.keygen] is a [KeyGen] *)
Abbreviation keygen_random_generator :=
  (KeyGen.random_generator md5_hexdigest uuid4).
Abbreviation keygen_gen_table_key := (KeyGen.gen_table_key md5_hexdigest).
Abbreviation keygen_gen_multi_key := (KeyGen.gen_multi_key md5_hexdigest).

Definition get_single_generation (table : string) (w : world)
  : string * world :=
  let key := keygen_gen_table_key table in
  match cache_get key w with
  | None =>
      let '(val, w) := keygen_random_generator w in
      (val, cache_set key val w)
  | Some val => (val, w)
  end.

(** The loop [for table in tables: generations += ...]: [+=] with a
    string on the right extends the list by the string's characters. *)
Fixpoint collect_generations (tables : list string)
    (generations : list string) (w : world) : list string * world :=
  match tables with
  | [] => (generations, w)
  | table :: rest =>
      let '(val, w) := get_single_generation table w in
      collect_generations rest (generations ++ Py.chars val) w
  end.

Definition get_multi_generation (tables : list string) (w : world)
  : string * world :=
  let '(generations, w) := collect_generations tables [] w in
  let key := keygen_gen_multi_key generations in
  match cache_get key w with
  | None =>
      let '(val, w) := keygen_random_generator w in
      (val, cache_set key val w)
  | Some val => (val, w)
  end.

Definition invalidate_table (table : string) (w : world) : string * world :=
  let key := keygen_gen_table_key table in
  let '(val, w) := keygen_random_generator w in
  (val, cache_set key val w).

(** The two methods [get_generation] calls, as Python sees them: two
    declared parameters each.  Only the argument shapes of the module's
    own calls are given a meaning. *)
Definition get_single_generation_method : method :=
  Def 2 (λ args w,
    match args with
    | [VSelf; VStr table] =>
        let '(val, w) := get_single_generation table w in (Return val, w)
    | _ => (Raise TypeError, w)
    end).

Definition get_multi_generation_method : method :=
  Def 2 (λ args w,
    match args with
    | [VSelf; VTuple tables] =>
        let '(val, w) := get_multi_generation tables w in (Return val, w)
    | _ => (Raise TypeError, w)
    end).

(** [get_generation(self, *tables)].  Both calls pass [self] explicitly
    to a bound method.  [tables[0]] is evaluated before the call. *)
Definition get_generation (tables : list string) (w : world)
  : outcome string * world :=
  if 1 <? length tables then
    call_bound get_multi_generation_method [VSelf; VTuple tables] w
  else
    match tables !! 0 with
    | None => (Raise IndexError, w)
    | Some table =>
        call_bound get_single_generation_method [VSelf; VStr table] w
    end.

End KeyHandler.
End KeyHandler.

(** ** Runs of a KeyHandler: vocabulary for the properties *)

(** A history of calls on one [KeyHandler]. *)
Inductive op :=
  | GetSingle (table : string)
  | GetMulti (tables : list string)
  | Invalidate (table : string)
  | GetGeneration (tables : list string).

(** A call that is not an invalidation. *)
Definition is_read (o : op) : bool :=
  match o with
  | Invalidate _ => false
  | _ => true
  end.

(** The two namespaces of the keys. *)
Definition namespaced (key : string) : bool :=
  String.prefix "jc_table_" key || String.prefix "jc_multi_" key.

Module Run.
Section Run.

Variable md5_hexdigest : string → string.
Variable uuid4 : nat → string.

(** The token [random_generator] returns at the [n]-th draw. *)
Definition token (n : nat) : string :=
  (KeyGen.random_generator md5_hexdigest uuid4 (World ∅ [] n)).1.

(** The world after a draw whose token is stored under [key]. *)
Definition publish (key : string) (w : world) : world :=
  World (<[key := token (drawn w)]> (cache w))
        (sets w ++ [(key, token (drawn w))])
        (S (drawn w)).

(** What the loop of [get_multi_generation] reads from slots that are
    already filled. *)
Definition read_generations (tables : list string) (w : world) : list string :=
  flat_map
    (λ table,
       Py.chars
         (default "" (cache_get (KeyGen.gen_table_key md5_hexdigest table) w)))
    tables.

(** The world a call leaves, and the world a history leaves. *)
Definition perform (w : world) (o : op) : world :=
  match o with
  | GetSingle table =>
      (KeyHandler.get_single_generation md5_hexdigest uuid4 table w).2
  | GetMulti tables =>
      (KeyHandler.get_multi_generation md5_hexdigest uuid4 tables w).2
  | Invalidate table =>
      (KeyHandler.invalidate_table md5_hexdigest uuid4 table w).2
  | GetGeneration tables =>
      (KeyHandler.get_generation md5_hexdigest uuid4 tables w).2
  end.

Definition run (history : list op) (w : world) : world :=
  fold_left perform history w.

(** No value sits in two slots. *)
Definition distinct_slots (w : world) : Prop :=
  ∀ k1 k2 v, cache w !! k1 = Some v → cache w !! k2 = Some v → k1 = k2.

(** Every stored value is a token drawn earlier in the run. *)
Definition issued (w : world) : Prop :=
  ∀ k v, cache w !! k = Some v → ∃ i, i < drawn w ∧ v = token i.

Definition coherent (w : world) : Prop := distinct_slots w ∧ issued w.

(** The first [hi] tokens of the run are pairwise different. *)
Definition fresh_run (hi : nat) : Prop :=
  ∀ i j, i < hi → j < hi → token i = token j → i = j.

(** [writes_from w w']: [w'] comes from [w] by drawing tokens and storing
    each one under a key of the two namespaces. *)
Inductive writes_from (w : world) : world → Prop :=
  | writes_none : writes_from w w
  | writes_more w' key :
      writes_from w w' → namespaced key = true →
      writes_from w (publish key w').

(** The generations of [tables] as the store holds them, whole. *)
Definition generation_values (tables : list string) (w : world) : list string :=
  map
    (λ table, default "" (cache_get (KeyGen.gen_table_key md5_hexdigest table) w))
    tables.

End Run.
End Run.


(** ** What the specification says, for comparison

    [derive_source_key] in the specification's words: the namespace tag,
    then the identifier itself when it has at most 200 characters, and
    otherwise its first 200 characters followed by the digest of the
    remaining ones. *)

Definition table_key_spec (H : string → string) (s : string) : string :=
  let cs := String.list_ascii_of_string s in
  "jc_table_" +:+
    (if decide (String.length s ≤ 200) then s
     else String.string_of_list_ascii (take 200 cs)
            +:+ H (String.string_of_list_ascii (drop 200 cs))).

(** A run of the values [uuid4] hands out, for the examples. *)
Definition sample_uuid4 (n : nat) : string :=
  "f47ac10b-58cc-4372-a567-0e02b2c3d4" +:+ MD5.hex [Z.of_nat n mod 256]%Z.

(** * Properties *)

(** ** Strings *)

Lemma app_cons c s t : String c s +:+ t = String c (s +:+ t).
Proof. reflexivity. Qed.

Lemma app_empty_l t : "" +:+ t = t.
Proof. reflexivity. Qed.

Lemma app_empty_r s : s +:+ "" = s.
Proof. induction s as [|c s IH]; [done|]. by rewrite app_cons, IH. Qed.

Lemma app_assoc_str s t u : (s +:+ t) +:+ u = s +:+ (t +:+ u).
Proof. induction s as [|c s IH]; [done|]. by rewrite !app_cons, IH. Qed.

Lemma length_app_str s t :
  String.length (s +:+ t) = String.length s + String.length t.
Proof. induction s as [|c s IH]; [done|]. rewrite app_cons. simpl. by rewrite IH. Qed.

Lemma length_list_ascii s :
  length (String.list_ascii_of_string s) = String.length s.
Proof. induction s as [|c s IH]; simpl; congruence. Qed.

Lemma length_of_list_ascii l :
  String.length (String.string_of_list_ascii l) = length l.
Proof. induction l as [|c l IH]; simpl; congruence. Qed.

Lemma substring_take_drop s : ∀ lo n,
  String.substring lo n s
  = String.string_of_list_ascii (take n (drop lo (String.list_ascii_of_string s))).
Proof.
  induction s as [|c s IH]; intros [|lo] [|n]; simpl; rewrite ?IH; done.
Qed.

Lemma slice_prefix s n :
  Py.slice s 0 (Some n)
  = String.string_of_list_ascii (take n (String.list_ascii_of_string s)).
Proof.
  unfold Py.slice, Py.len. rewrite substring_take_drop, Nat.sub_0_r, drop_0.
  destruct (Nat.min_spec n (String.length s)) as [[_ ->]|[Hle ->]]; [done|].
  rewrite <- length_list_ascii. rewrite <- length_list_ascii in Hle.
  by rewrite firstn_all, take_ge.
Qed.

Lemma slice_suffix s n :
  Py.slice s n None
  = String.string_of_list_ascii (drop n (String.list_ascii_of_string s)).
Proof.
  unfold Py.slice, Py.len. rewrite substring_take_drop. f_equal.
  apply take_ge. rewrite length_drop, length_list_ascii. lia.
Qed.

Lemma concat_chars s : String.concat "" (Py.chars s) = s.
Proof.
  induction s as [|c s IH]; [done|]. simpl.
  destruct (Py.chars s) eqn:E.
  - by destruct s.
  - rewrite IH. reflexivity.
Qed.

Lemma concat_cons x l : String.concat "" (x :: l) = x +:+ String.concat "" l.
Proof. destruct l; simpl; [by rewrite app_empty_r | done]. Qed.

Lemma concat_app l1 l2 :
  String.concat "" (l1 ++ l2) = String.concat "" l1 +:+ String.concat "" l2.
Proof.
  induction l1 as [|x l1 IH]; [done|].
  rewrite <- app_comm_cons, !concat_cons, IH. by rewrite app_assoc_str.
Qed.

(** ** The MD5 digest *)

Example md5_empty : MD5.hexdigest "" = "d41d8cd98f00b204e9800998ecf8427e".
Proof. vm_compute. reflexivity. Qed.

Example md5_abc : MD5.hexdigest "abc" = "900150983cd24fb0d6963f7d28e17f72".
Proof. vm_compute. reflexivity. Qed.

Lemma length_hex bs : String.length (MD5.hex bs) = 2 * length bs.
Proof. induction bs as [|b bs IH]; simpl; [done|]. rewrite IH. lia. Qed.

Lemma length_le_bytes n x : length (MD5.le_bytes n x) = n.
Proof. revert x. induction n as [|n IH]; intros x; simpl; [done|]. by rewrite IH. Qed.

(** An MD5 digest is sixteen bytes, so thirty-two hexadecimal digits. *)
Lemma length_md5_hexdigest s : String.length (MD5.hexdigest s) = 32.
Proof.
  unfold MD5.hexdigest, MD5.digest. rewrite length_hex.
  destruct (fold_left MD5.block _ MD5.init) as [[[a b] c] d].
  by rewrite !length_app, !length_le_bytes.
Qed.

(** ** KeyGen *)

Section KeyGenFacts.

Variable md5_hexdigest : string → string.

Abbreviation gen_table_key := (KeyGen.gen_table_key md5_hexdigest).
Abbreviation gen_multi_key := (KeyGen.gen_multi_key md5_hexdigest).

Lemma gen_table_key_short s :
  String.length s ≤ 200 → gen_table_key s = "jc_table_" +:+ s.
Proof.
  intros Hs. unfold KeyGen.gen_table_key, Py.len, Py.format_s, Py.str.
  by destruct (Nat.ltb_spec 200 (String.length s)); [lia|].
Qed.

Lemma gen_table_key_long s :
  200 < String.length s →
  gen_table_key s
  = "jc_table_" +:+ Py.slice s 0 (Some 200)
                +:+ md5_hexdigest (Py.slice s 200 None).
Proof.
  intros Hs. unfold KeyGen.gen_table_key, Py.len, Py.format_s, Py.str.
  by destruct (Nat.ltb_spec 200 (String.length s)); [|lia].
Qed.

Lemma fed_updates values m :
  Hashlib.fed (fold_left (λ key v, Hashlib.update key (Py.str v)) values m)
  = Hashlib.fed m +:+ String.concat "" values.
Proof.
  revert m. induction values as [|v values IH]; intros m.
  - simpl. by rewrite app_empty_r.
  - cbn [fold_left]. rewrite IH, concat_cons. unfold Hashlib.update, Py.str.
    simpl. by rewrite app_assoc_str.
Qed.

(** The combined key hashes the values joined end to end. *)
Lemma gen_multi_key_concat values :
  gen_multi_key values = "jc_multi_" +:+ md5_hexdigest (String.concat "" values).
Proof.
  unfold KeyGen.gen_multi_key, Hashlib.hexdigest, Py.format_s.
  by rewrite fed_updates.
Qed.

Lemma table_key_tag s : String.get 3 (gen_table_key s) = Some "t"%char.
Proof. unfold KeyGen.gen_table_key, Py.format_s. by rewrite !app_cons. Qed.

Lemma multi_key_tag values : String.get 3 (gen_multi_key values) = Some "m"%char.
Proof. rewrite gen_multi_key_concat. by rewrite !app_cons. Qed.

Lemma table_key_not_multi s values : gen_table_key s = gen_multi_key values → False.
Proof.
  intros E. pose proof (table_key_tag s) as Ht.
  rewrite E, multi_key_tag in Ht. discriminate.
Qed.

Lemma short_table_keys_inj t u :
  String.length t ≤ 200 → String.length u ≤ 200 →
  gen_table_key t = gen_table_key u → t = u.
Proof.
  intros Ht Hu. rewrite !gen_table_key_short by done.
  apply (inj (String.app "jc_table_")).
Qed.

(** C8: [gen_table_key s] is the tag [jc_table_] followed by [s] itself
    when [s] has at most 200 characters, and followed by the first 200
    characters of [s] and the digest of the remaining characters when it
    has more: the code agrees with the specification's wording
    ([table_key_spec]) on every identifier. *)
Theorem gen_table_key_meets_spec s :
  gen_table_key s = table_key_spec md5_hexdigest s.
Proof.
  unfold table_key_spec. case_decide as Hs.
  - by apply gen_table_key_short.
  - rewrite gen_table_key_long by lia.
    by rewrite slice_prefix, slice_suffix.
Qed.

(** C7: for an identifier of more than 200 characters the derived key has
    at most 242 characters (9 for the tag, 200 kept, 32 of digest), given
    that the digest has the 32 hexadecimal digits of MD5. *)
Theorem gen_table_key_length_bound s :
  (∀ x, String.length (md5_hexdigest x) = 32) →
  200 < String.length s →
  String.length (gen_table_key s) ≤ 242.
Proof.
  intros Hlen Hs. rewrite gen_table_key_long by done.
  rewrite !length_app_str, Hlen, slice_prefix, length_of_list_ascii, length_take.
  change (String.length "jc_table_") with 9. lia.
Qed.

(** C9: a single-source key never equals a combined key, whatever the
    identifier and the list of generation values: their tags [jc_table_]
    and [jc_multi_] differ. *)
Theorem table_key_never_multi_key s values :
  gen_table_key s ≠ gen_multi_key values.
Proof.
  intros E. pose proof (table_key_tag s) as Ht.
  rewrite E, multi_key_tag in Ht. discriminate.
Qed.

(** C10: two lists of generation values with the same concatenation get
    the same combined key; the boundaries between the values do not
    enter the key. *)
Theorem gen_multi_key_concat_only values1 values2 :
  String.concat "" values1 = String.concat "" values2 →
  gen_multi_key values1 = gen_multi_key values2.
Proof. intros E. by rewrite !gen_multi_key_concat, E. Qed.

End KeyGenFacts.

Lemma gen_table_key_length_bound_witness :
  200 < String.length (String.string_of_list_ascii (repeat "x"%char 230))
  ∧ String.length
      (KeyGen.gen_table_key MD5.hexdigest
         (String.string_of_list_ascii (repeat "x"%char 230))) ≤ 242.
Proof.
  split.
  - apply Nat.ltb_lt. vm_compute. reflexivity.
  - apply (gen_table_key_length_bound MD5.hexdigest).
    + exact length_md5_hexdigest.
    + apply Nat.ltb_lt. vm_compute. reflexivity.
Defined.

Lemma gen_multi_key_concat_only_witness :
  KeyGen.gen_multi_key MD5.hexdigest ["ab"; "c"]
  = KeyGen.gen_multi_key MD5.hexdigest ["a"; "bc"].
Proof. apply (gen_multi_key_concat_only MD5.hexdigest). reflexivity. Defined.

(** ** KeyHandler *)

Section KeyHandlerFacts.

Variable md5_hexdigest : string → string.
Variable uuid4 : nat → string.

Abbreviation gen_table_key := (KeyGen.gen_table_key md5_hexdigest).
Abbreviation gen_multi_key := (KeyGen.gen_multi_key md5_hexdigest).
Abbreviation random_generator := (KeyGen.random_generator md5_hexdigest uuid4).
Abbreviation get_single_generation :=
  (KeyHandler.get_single_generation md5_hexdigest uuid4).
Abbreviation collect_generations :=
  (KeyHandler.collect_generations md5_hexdigest uuid4).
Abbreviation get_multi_generation :=
  (KeyHandler.get_multi_generation md5_hexdigest uuid4).
Abbreviation invalidate_table :=
  (KeyHandler.invalidate_table md5_hexdigest uuid4).
Abbreviation get_generation := (KeyHandler.get_generation md5_hexdigest uuid4).
Abbreviation token := (Run.token md5_hexdigest uuid4).
Abbreviation publish := (Run.publish md5_hexdigest uuid4).
Abbreviation read_generations := (Run.read_generations md5_hexdigest).
Abbreviation perform := (Run.perform md5_hexdigest uuid4).
Abbreviation run := (Run.run md5_hexdigest uuid4).
Abbreviation distinct_slots := Run.distinct_slots.
Abbreviation issued := (Run.issued md5_hexdigest uuid4).
Abbreviation coherent := (Run.coherent md5_hexdigest uuid4).
Abbreviation fresh_run := (Run.fresh_run md5_hexdigest uuid4).

(** *** One call at a time *)

Lemma random_generator_token w :
  random_generator w
  = (token (drawn w), World (cache w) (sets w) (S (drawn w))).
Proof. reflexivity. Qed.

Lemma get_single_hit table w val :
  cache w !! gen_table_key table = Some val →
  get_single_generation table w = (val, w).
Proof.
  intros E. unfold KeyHandler.get_single_generation, cache_get. by rewrite E.
Qed.

Lemma get_single_miss table w :
  cache w !! gen_table_key table = None →
  get_single_generation table w
  = (token (drawn w), publish (gen_table_key table) w).
Proof.
  intros E. unfold KeyHandler.get_single_generation, cache_get. by rewrite E.
Qed.

Lemma invalidate_publishes table w :
  invalidate_table table w
  = (token (drawn w), publish (gen_table_key table) w).
Proof. reflexivity. Qed.

Lemma get_single_stored table w :
  cache (get_single_generation table w).2 !! gen_table_key table
  = Some (get_single_generation table w).1.
Proof.
  destruct (cache w !! gen_table_key table) as [val|] eqn:E.
  - by rewrite (get_single_hit _ _ _ E).
  - rewrite (get_single_miss _ _ E). apply lookup_insert_eq.
Qed.

Lemma get_single_keeps table w :
  cache w ⊆ cache (get_single_generation table w).2.
Proof.
  destruct (cache w !! gen_table_key table) as [val|] eqn:E.
  - by rewrite (get_single_hit _ _ _ E).
  - rewrite (get_single_miss _ _ E). by apply insert_subseteq.
Qed.

Lemma get_single_drawn table w :
  drawn w ≤ drawn (get_single_generation table w).2.
Proof.
  destruct (cache w !! gen_table_key table) as [val|] eqn:E.
  - by rewrite (get_single_hit _ _ _ E).
  - rewrite (get_single_miss _ _ E). simpl. lia.
Qed.

(** *** The loop of get_multi_generation *)

Lemma read_generations_ext tables w w' :
  (∀ table, table ∈ tables →
     cache w' !! gen_table_key table = cache w !! gen_table_key table) →
  read_generations tables w' = read_generations tables w.
Proof.
  induction tables as [|t tables IH]; intros Hsame; [done|].
  unfold Run.read_generations, cache_get in *. simpl.
  rewrite Hsame by left. f_equal. apply IH.
  intros table Hin. apply Hsame. by right.
Qed.

Lemma collect_hits tables : ∀ generations w,
  (∀ table, table ∈ tables → is_Some (cache w !! gen_table_key table)) →
  collect_generations tables generations w
  = (generations ++ read_generations tables w, w).
Proof.
  induction tables as [|t tables IH]; intros generations w Hall.
  - simpl. by rewrite app_nil_r.
  - destruct (Hall t) as [val E]; [by left|]. simpl.
    rewrite (get_single_hit _ _ _ E), IH.
    + unfold Run.read_generations, cache_get. simpl.
      by rewrite E, <- app_assoc.
    + intros table Hin. apply Hall. by right.
Qed.

Lemma collect_spec tables : ∀ generations w,
  let r := collect_generations tables generations w in
  r.1 = generations ++ read_generations tables r.2
  ∧ cache w ⊆ cache r.2
  ∧ (∀ table, table ∈ tables → is_Some (cache r.2 !! gen_table_key table))
  ∧ drawn w ≤ drawn r.2.
Proof.
  induction tables as [|t tables IH]; intros generations w.
  - simpl. rewrite app_nil_r. repeat split; [done|set_solver|done].
  - simpl.
    pose proof (get_single_stored t w) as Hst.
    pose proof (get_single_keeps t w) as Hkeep.
    pose proof (get_single_drawn t w) as Hdr.
    destruct (get_single_generation t w) as [val w1]. simpl in *.
    specialize (IH (generations ++ Py.chars val) w1).
    destruct (collect_generations tables (generations ++ Py.chars val) w1)
      as [gens w2].
    simpl in *. destruct IH as (Hg & Hsub & Hall & Hle).
    pose proof (lookup_weaken _ _ _ _ Hst Hsub) as Ht.
    repeat split.
    + rewrite Hg. unfold Run.read_generations, cache_get. simpl.
      by rewrite Ht, <- app_assoc.
    + by etrans.
    + intros table [->|Hin]%elem_of_cons; [by eexists | by apply Hall].
    + lia.
Qed.

(** *** get_multi_generation *)

Lemma get_multi_hit tables w gens w1 val :
  collect_generations tables [] w = (gens, w1) →
  cache w1 !! gen_multi_key gens = Some val →
  get_multi_generation tables w = (val, w1).
Proof.
  intros Ec E. unfold KeyHandler.get_multi_generation, cache_get.
  by rewrite Ec, E.
Qed.

Lemma get_multi_miss tables w gens w1 :
  collect_generations tables [] w = (gens, w1) →
  cache w1 !! gen_multi_key gens = None →
  get_multi_generation tables w
  = (token (drawn w1), publish (gen_multi_key gens) w1).
Proof.
  intros Ec E. unfold KeyHandler.get_multi_generation, cache_get.
  by rewrite Ec, E.
Qed.

(** After a call, the combined slot holds the returned value, the slots
    of all the tables are filled, nothing that was stored is lost, and
    the list that was hashed is the one read back from the slots. *)
Lemma get_multi_spec tables w :
  let r := get_multi_generation tables w in
  let gens := read_generations tables r.2 in
  (collect_generations tables [] w).1 = gens
  ∧ cache r.2 !! gen_multi_key gens = Some r.1
  ∧ cache w ⊆ cache r.2
  ∧ (∀ table, table ∈ tables → is_Some (cache r.2 !! gen_table_key table))
  ∧ drawn w ≤ drawn r.2.
Proof.
  pose proof (collect_spec tables [] w) as Hc.
  destruct (collect_generations tables [] w) as [gens w1] eqn:Ec.
  simpl in Hc. destruct Hc as (Hg & Hsub & Hall & Hle).
  destruct (cache w1 !! gen_multi_key gens) as [val|] eqn:E.
  - rewrite (get_multi_hit _ _ _ _ _ Ec E). simpl.
    rewrite <- Hg. by repeat split.
  - rewrite (get_multi_miss _ _ _ _ Ec E). simpl.
    assert (read_generations tables (publish (gen_multi_key gens) w1) = gens)
      as Hread.
    { rewrite Hg at 2. apply read_generations_ext. intros table _. simpl.
      apply lookup_insert_ne. intros Heq.
      by apply (table_key_not_multi md5_hexdigest table gens). }
    rewrite Hread. repeat split.
    + apply lookup_insert_eq.
    + etrans; [exact Hsub|]. by apply insert_subseteq.
    + intros table Hin. destruct (Hall table Hin) as [v Hv].
      exists v. eapply lookup_weaken; [exact Hv|]. by apply insert_subseteq.
    + lia.
Qed.

(** A second call right after the first finds every slot filled: it
    returns the same value and leaves the world as it is. *)
Lemma get_multi_again tables w :
  let r := get_multi_generation tables w in
  get_multi_generation tables r.2 = r.
Proof.
  intros r. destruct (get_multi_spec tables w) as (_ & Hk & _ & Hall & _).
  fold r in Hk, Hall. rewrite (surjective_pairing r) at 2.
  eapply get_multi_hit; [|exact Hk].
  by rewrite collect_hits.
Qed.

(** *** get_generation *)

Lemma get_generation_world tables w : (get_generation tables w).2 = w.
Proof. by destruct tables as [|t [|t' tables]]. Qed.

(** C1, as the code behaves: for every nonempty tuple of identifiers
    [get_generation] raises [TypeError] and leaves the world untouched,
    because it hands [self] a second time to a bound method; it returns
    neither the single nor the combined generation. *)
Theorem get_generation_raises_type_error table tables w :
  get_generation (table :: tables) w = (Raise TypeError, w).
Proof. by destruct tables. Qed.

(** *** The testable properties of the tracker *)

(** C3: with [v1] from [get_single_generation s], [v2] from
    [invalidate_table s] and [v3] from [get_single_generation s] again,
    [v2 = v3] always, and [v1 ≠ v2] when the token drawn by the
    invalidation differs from the one the slot held. *)
Theorem invalidation_changes_value s w :
  let r1 := get_single_generation s w in
  let r2 := invalidate_table s r1.2 in
  let r3 := get_single_generation s r2.2 in
  r2.1 = r3.1
  ∧ (cache_get (gen_table_key s) r1.2 ≠ Some (random_generator r1.2).1 →
     r1.1 ≠ r2.1).
Proof.
  intros r1 r2 r3. split.
  - subst r3 r2. rewrite invalidate_publishes. simpl.
    erewrite get_single_hit; [done|]. apply lookup_insert_eq.
  - intros Hfresh Heq. apply Hfresh. unfold cache_get.
    subst r1 r2. rewrite get_single_stored. f_equal.
    by rewrite Heq, invalidate_publishes.
Qed.

(** C4: on an empty store the first [get_single_generation s] returns a
    value [v1], writes it under the table key (one [set] call), and a
    second call returns the same [v1] and changes nothing, so it
    performs no write. *)
Theorem lazy_creation_then_reuse s log n :
  let r1 := get_single_generation s (World ∅ log n) in
  let r2 := get_single_generation s r1.2 in
  cache r1.2 !! gen_table_key s = Some r1.1
  ∧ sets r1.2 = log ++ [(gen_table_key s, r1.1)]
  ∧ r2.1 = r1.1
  ∧ sets r2.2 = sets r1.2
  ∧ r2.2 = r1.2.
Proof.
  intros r1 r2.
  assert (get_single_generation s r1.2 = (r1.1, r1.2)) as Hagain.
  { apply get_single_hit, get_single_stored. }
  subst r2. rewrite Hagain. subst r1.
  rewrite get_single_miss by apply lookup_empty. simpl.
  by rewrite lookup_insert_eq.
Qed.

(** C5: two consecutive calls of [get_multi_generation] on the same list,
    nothing happening in between, return equal values, for every list
    and every world. *)
Theorem multi_generation_stable tables w :
  let r1 := get_multi_generation tables w in
  let r2 := get_multi_generation tables r1.2 in
  r2.1 = r1.1.
Proof. intros r1 r2. subst r2 r1. by rewrite get_multi_again. Qed.

(** C6: for distinct identifiers [t] and [u] of at most 200 characters,
    [invalidate_table t] makes exactly one [set] call, on the key of [t],
    leaves every other key of the store as it was, in particular the
    slot of [u], and [get_single_generation u] returns after the
    invalidation what it returned before. *)
Theorem invalidation_is_isolated t u w :
  t ≠ u → String.length t ≤ 200 → String.length u ≤ 200 →
  let r0 := get_single_generation u w in
  let r1 := invalidate_table t r0.2 in
  let r2 := get_single_generation u r1.2 in
  cache (invalidate_table t w).2 !! gen_table_key u
    = cache w !! gen_table_key u
  ∧ sets (invalidate_table t w).2
    = sets w ++ [(gen_table_key t, (invalidate_table t w).1)]
  ∧ (∀ k, k ≠ gen_table_key t → cache (invalidate_table t w).2 !! k = cache w !! k)
  ∧ r2.1 = r0.1.
Proof.
  intros Hne Ht Hu r0 r1 r2.
  assert (gen_table_key t ≠ gen_table_key u) as Hkeys.
  { intros E. by apply Hne, (short_table_keys_inj md5_hexdigest). }
  repeat split.
  - rewrite invalidate_publishes. simpl. by apply lookup_insert_ne.
  - intros k Hk. rewrite invalidate_publishes. simpl. by apply lookup_insert_ne.
  - subst r2 r1. rewrite invalidate_publishes. simpl.
    erewrite get_single_hit; [done|]. simpl.
    rewrite lookup_insert_ne by done. apply get_single_stored.
Qed.

(** *** Coherence of the store along a run

    While the tokens of the run do not repeat, every stored value is a
    token drawn earlier and no value sits in two slots. *)

Lemma publish_coherent hi key w :
  fresh_run hi → drawn w < hi → coherent w → coherent (publish key w).
Proof.
  intros Hfresh Hlt [Hdist Hiss].
  assert (∀ k, cache w !! k = Some (token (drawn w)) → False) as Hnew.
  { intros k Hk. destruct (Hiss _ _ Hk) as (i & Hi & Htok).
    symmetry in Htok. apply Hfresh in Htok; lia. }
  split.
  - intros k1 k2 v. simpl. rewrite !lookup_insert.
    repeat case_decide; intros H1 H2; simplify_eq; try done.
    + by destruct (Hnew k2).
    + by destruct (Hnew k1).
    + by eapply Hdist.
  - intros k v. simpl. rewrite lookup_insert.
    case_decide; intros Hk; simplify_eq.
    + exists (drawn w). split; [lia | done].
    + destruct (Hiss _ _ Hk) as (i & Hi & ->). exists i. split; [lia | done].
Qed.

Lemma get_single_coherent hi table w :
  fresh_run hi → drawn (get_single_generation table w).2 ≤ hi →
  coherent w → coherent (get_single_generation table w).2.
Proof.
  intros Hfresh. destruct (cache w !! gen_table_key table) as [val|] eqn:E.
  - by rewrite (get_single_hit _ _ _ E).
  - rewrite (get_single_miss _ _ E). simpl. intros Hle.
    by apply (publish_coherent hi).
Qed.

Lemma invalidate_coherent hi table w :
  fresh_run hi → drawn (invalidate_table table w).2 ≤ hi →
  coherent w → coherent (invalidate_table table w).2.
Proof.
  intros Hfresh. rewrite invalidate_publishes. simpl. intros Hle.
  by apply (publish_coherent hi).
Qed.

Lemma collect_coherent hi tables : ∀ generations w,
  fresh_run hi → drawn (collect_generations tables generations w).2 ≤ hi →
  coherent w → coherent (collect_generations tables generations w).2.
Proof.
  induction tables as [|t tables IH]; intros generations w Hfresh; [done|].
  simpl.
  pose proof (get_single_coherent hi t w Hfresh) as Hstep.
  destruct (get_single_generation t w) as [val w1]. simpl in Hstep.
  pose proof (collect_spec tables (generations ++ Py.chars val) w1) as Hc.
  simpl in Hc. destruct Hc as (_ & _ & _ & Hmono).
  intros Hle Hcoh. apply IH; [done..|]. apply Hstep; [lia|done].
Qed.

Lemma get_multi_coherent hi tables w :
  fresh_run hi → drawn (get_multi_generation tables w).2 ≤ hi →
  coherent w → coherent (get_multi_generation tables w).2.
Proof.
  intros Hfresh.
  pose proof (collect_coherent hi tables [] w Hfresh) as Hstep.
  destruct (collect_generations tables [] w) as [gens w1] eqn:Ec.
  simpl in Hstep.
  destruct (cache w1 !! gen_multi_key gens) as [val|] eqn:E.
  - by rewrite (get_multi_hit _ _ _ _ _ Ec E).
  - rewrite (get_multi_miss _ _ _ _ Ec E). simpl. intros Hle Hcoh.
    apply (publish_coherent hi); [done|lia|]. apply Hstep; [lia|done].
Qed.

Lemma perform_drawn o w : drawn w ≤ drawn (perform w o).
Proof.
  destruct o as [t|ts|t|ts]; simpl.
  - apply get_single_drawn.
  - apply get_multi_spec.
  - lia.
  - by rewrite get_generation_world.
Qed.

Lemma run_drawn history : ∀ w, drawn w ≤ drawn (run history w).
Proof.
  induction history as [|o history IH]; intros w; [done|].
  simpl. etrans; [apply (perform_drawn o)|apply IH].
Qed.

Lemma perform_coherent hi o w :
  fresh_run hi → drawn (perform w o) ≤ hi →
  coherent w → coherent (perform w o).
Proof.
  destruct o as [t|ts|t|ts]; simpl.
  - apply get_single_coherent.
  - apply get_multi_coherent.
  - apply invalidate_coherent.
  - by rewrite get_generation_world.
Qed.

Lemma run_coherent hi history : ∀ w,
  fresh_run hi → drawn (run history w) ≤ hi →
  coherent w → coherent (run history w).
Proof.
  induction history as [|o history IH]; intros w Hfresh Hle Hcoh; [done|].
  simpl in *. apply IH; [done..|].
  apply (perform_coherent hi); [done| |done].
  etrans; [apply run_drawn|exact Hle].
Qed.

Lemma empty_world_coherent : coherent empty_world.
Proof. split; intros ?; intros; simplify_map_eq. Qed.

Lemma NoDup_fresh_run hi : NoDup (token <$> seq 0 hi) → fresh_run hi.
Proof.
  intros Hnd i j Hi Hj Heq.
  apply (proj1 (NoDup_alt _) Hnd i j (token i)).
  - rewrite list_lookup_fmap, lookup_seq_lt by done. done.
  - rewrite list_lookup_fmap, lookup_seq_lt by done. simpl. by rewrite Heq.
Qed.

(** *** Invalidating one of two tables *)

Lemma read_two_generations u o w gu go :
  cache w !! gen_table_key u = Some gu →
  cache w !! gen_table_key o = Some go →
  String.concat "" (read_generations [u; o] w) = gu +:+ go.
Proof.
  intros Eu Eo. unfold Run.read_generations, cache_get. simpl.
  rewrite Eu, Eo. simpl.
  by rewrite app_nil_r, concat_app, !concat_chars.
Qed.

Lemma sensitivity_from_coherent u o w :
  let tables := [u; o] in
  let r1 := get_multi_generation tables w in
  let r2 := invalidate_table o r1.2 in
  let r3 := get_multi_generation tables r2.2 in
  gen_table_key u ≠ gen_table_key o →
  coherent w →
  fresh_run (drawn r3.2) →
  (let g1 := String.concat "" (collect_generations tables [] w).1 in
   let g2 := String.concat "" (collect_generations tables [] r2.2).1 in
   md5_hexdigest g1 = md5_hexdigest g2 → g1 = g2) →
  r1.1 ≠ r3.1.
Proof.
  intros tables r1 r2 r3 Hkeys Hcoh Hfresh Hhash Heq.
  destruct (get_multi_spec tables w) as (Hg1 & Hk1 & _ & Hall1 & Hd1).
  destruct (get_multi_spec tables r2.2) as (Hg3 & Hk3 & Hsub3 & _ & Hd3).
  fold r1 in Hg1, Hk1, Hall1, Hd1. fold r3 in Hg3, Hk3, Hsub3, Hd3.
  assert (r2 = (token (drawn r1.2), publish (gen_table_key o) r1.2)) as Hr2
    by reflexivity.
  rewrite Hr2 in Hd3, Hsub3. simpl in Hd3, Hsub3.
  (* the store stays coherent to the end *)
  assert (coherent r1.2) as Hcoh1.
  { apply (get_multi_coherent (drawn r3.2)); [done|fold r1; lia|done]. }
  assert (coherent r3.2) as [Hdist3 _].
  { apply (get_multi_coherent (drawn r3.2)); [done|fold r3; lia|].
    rewrite Hr2. simpl. apply (publish_coherent (drawn r3.2)); [done|lia|done]. }
  (* the first combined slot is still there *)
  assert (cache r3.2 !! gen_multi_key (read_generations tables r1.2)
          = Some r1.1) as Hk1'.
  { eapply lookup_weaken; [|exact Hsub3].
    rewrite lookup_insert_ne; [done|]. intros E.
    exact (table_key_not_multi _ _ _ E). }
  (* equal values sit in equal slots, so the two hashed texts agree *)
  rewrite Heq in Hk1'.
  pose proof (Hdist3 _ _ _ Hk1' Hk3) as Hsame.
  rewrite !(gen_multi_key_concat md5_hexdigest) in Hsame.
  apply (inj (String.app "jc_multi_")) in Hsame.
  rewrite Hg1, Hg3 in Hhash. specialize (Hhash Hsame).
  (* but they differ in the generation of the invalidated table *)
  destruct (Hall1 u) as [gu Hu]; [set_solver|].
  destruct (Hall1 o) as [go Ho]; [set_solver|].
  assert (cache r3.2 !! gen_table_key u = Some gu) as Hu3.
  { eapply lookup_weaken; [|exact Hsub3]. by rewrite lookup_insert_ne. }
  assert (cache r3.2 !! gen_table_key o = Some (token (drawn r1.2))) as Ho3.
  { eapply lookup_weaken; [|exact Hsub3]. apply lookup_insert_eq. }
  unfold tables in Hhash.
  rewrite (read_two_generations _ _ _ _ _ Hu Ho) in Hhash.
  rewrite (read_two_generations _ _ _ _ _ Hu3 Ho3) in Hhash.
  apply (inj (String.app gu)) in Hhash.
  destruct Hcoh1 as [_ Hiss1]. destruct (Hiss1 _ _ Ho) as (i & Hi & Htok).
  rewrite Hhash in Htok. symmetry in Htok. apply Hfresh in Htok; lia.
Qed.

(** C2: after any history of calls on an empty store, let [c1] be
    [get_multi_generation] over [users] and [orders], then invalidate
    [orders], then let [c2] be [get_multi_generation] over the same list.
    If the tokens drawn up to the end are pairwise different (so each
    fresh token differs from every token stored or returned before it)
    and md5 does not collide on the two texts hashed into the combined
    keys, then [c1 ≠ c2]. *)
Theorem multi_generation_sensitivity history :
  let tables := ["users"; "orders"] in
  let w := run history empty_world in
  let r1 := get_multi_generation tables w in
  let r2 := invalidate_table "orders" r1.2 in
  let r3 := get_multi_generation tables r2.2 in
  NoDup (token <$> seq 0 (drawn r3.2)) →
  (let g1 := String.concat "" (collect_generations tables [] w).1 in
   let g2 := String.concat "" (collect_generations tables [] r2.2).1 in
   md5_hexdigest g1 = md5_hexdigest g2 → g1 = g2) →
  r1.1 ≠ r3.1.
Proof.
  intros tables w r1 r2 r3 Hnd Hhash.
  apply NoDup_fresh_run in Hnd.
  apply sensitivity_from_coherent; [| |done|done].
  - intros E. apply (short_table_keys_inj md5_hexdigest) in E; [done|simpl; lia..].
  - apply (run_coherent (drawn r3.2)); [done| |apply empty_world_coherent].
    assert (drawn w ≤ drawn r1.2) as Hd1 by apply get_multi_spec.
    assert (drawn r2.2 ≤ drawn r3.2) as Hd3 by apply get_multi_spec.
    assert (drawn r2.2 = S (drawn r1.2)) as Hd2 by reflexivity.
    change (drawn w ≤ drawn r3.2). lia.
Qed.

End KeyHandlerFacts.

(** ** The properties on a concrete run: MD5 and a sample of uuids *)

Lemma multi_generation_sensitivity_witness :
  let tables := ["users"; "orders"] in
  let history := [GetMulti ["users"; "orders"]; Invalidate "users"] in
  let w := Run.run MD5.hexdigest sample_uuid4 history empty_world in
  let r1 := KeyHandler.get_multi_generation MD5.hexdigest sample_uuid4 tables w in
  let r2 := KeyHandler.invalidate_table MD5.hexdigest sample_uuid4 "orders" r1.2 in
  let r3 := KeyHandler.get_multi_generation MD5.hexdigest sample_uuid4 tables r2.2 in
  NoDup (Run.token MD5.hexdigest sample_uuid4 <$> seq 0 (drawn r3.2))
  ∧ r1.1 ≠ r3.1.
Proof.
  intros tables history w r1 r2 r3.
  assert (NoDup (Run.token MD5.hexdigest sample_uuid4 <$> seq 0 (drawn r3.2)))
    as Hnd.
  { apply (bool_decide_unpack _). vm_compute. exact I. }
  split; [exact Hnd|].
  apply (multi_generation_sensitivity MD5.hexdigest sample_uuid4 history).
  - exact Hnd.
  - vm_compute. intros E. discriminate E.
Defined.

Lemma invalidation_changes_value_witness :
  let r1 := KeyHandler.get_single_generation MD5.hexdigest sample_uuid4 "users" empty_world in
  let r2 := KeyHandler.invalidate_table MD5.hexdigest sample_uuid4 "users" r1.2 in
  let r3 := KeyHandler.get_single_generation MD5.hexdigest sample_uuid4 "users" r2.2 in
  cache_get (KeyGen.gen_table_key MD5.hexdigest "users") r1.2
    ≠ Some (KeyGen.random_generator MD5.hexdigest sample_uuid4 r1.2).1
  ∧ r2.1 = r3.1 ∧ r1.1 ≠ r2.1.
Proof.
  intros r1 r2 r3.
  assert (cache_get (KeyGen.gen_table_key MD5.hexdigest "users") r1.2
          ≠ Some (KeyGen.random_generator MD5.hexdigest sample_uuid4 r1.2).1) as Hfresh.
  { vm_compute. intros E. discriminate E. }
  destruct (invalidation_changes_value MD5.hexdigest sample_uuid4
              "users" empty_world) as [Hsame Hdiff].
  split; [exact Hfresh|]. split; [exact Hsame | exact (Hdiff Hfresh)].
Defined.

Lemma invalidation_is_isolated_witness :
  let w := empty_world in
  let r0 := KeyHandler.get_single_generation MD5.hexdigest sample_uuid4 "users" w in
  let r1 := KeyHandler.invalidate_table MD5.hexdigest sample_uuid4 "orders" r0.2 in
  let r2 := KeyHandler.get_single_generation MD5.hexdigest sample_uuid4 "users" r1.2 in
  "orders" ≠ "users"
  ∧ cache (KeyHandler.invalidate_table MD5.hexdigest sample_uuid4 "orders" w).2
      !! KeyGen.gen_table_key MD5.hexdigest "users"
    = cache w !! KeyGen.gen_table_key MD5.hexdigest "users"
  ∧ r2.1 = r0.1.
Proof.
  intros w r0 r1 r2.
  assert ("orders" ≠ "users") as Hne by discriminate.
  destruct (invalidation_is_isolated MD5.hexdigest sample_uuid4
              "orders" "users" w Hne) as (Hslot & _ & _ & Hval).
  - simpl. lia.
  - simpl. lia.
  - split; [exact Hne|]. split; [exact Hslot | exact Hval].
Defined.


(** The first combined lookup on an empty store: three [set] calls, the
    combined key being the digest of the two generations joined. *)
Example first_multi_generation :
  let r := KeyHandler.get_multi_generation MD5.hexdigest sample_uuid4
             ["users"; "orders"] empty_world in
  r.1 = "8481a12265f79464b355ae5102bfbfed"
  ∧ sets r.2
    = [("jc_table_users", "6cb675e97a5dfc017d8ba67b37d44fb1");
       ("jc_table_orders", "bda20a5931307c8c9ed7ad0ef5cf59d6");
       ("jc_multi_17b70466a2176554fd813bdc67ab39ca",
        "8481a12265f79464b355ae5102bfbfed")].
Proof. vm_compute. split; reflexivity. Qed.

(** The loop collects the generation character by character. *)
Example collected_characters :
  length (KeyHandler.collect_generations MD5.hexdigest sample_uuid4
            ["users"] [] empty_world).1 = 32.
Proof. vm_compute. reflexivity. Qed.

(** Without arguments [tables[0]] fails before any call is made. *)
Example get_generation_no_table :
  KeyHandler.get_generation MD5.hexdigest sample_uuid4 [] empty_world
  = (Raise IndexError, empty_world).
Proof. reflexivity. Qed.

(** * Further properties of the key scheme *)

(** ** More on strings *)

Lemma app_inj_length a : ∀ a' b b',
  String.length a = String.length a' →
  a +:+ b = a' +:+ b' → a = a' ∧ b = b'.
Proof.
  induction a as [|c a IH]; intros [|c' a'] b b' Hlen Heq;
    simpl in Hlen; try discriminate.
  - by rewrite !app_empty_l in Heq.
  - rewrite !app_cons in Heq. injection Heq as -> Hrest.
    destruct (IH a' b b') as [-> ->]; [lia|done|done].
Qed.

Lemma prefix_app p x : String.prefix p (p +:+ x) = true.
Proof.
  induction p as [|c p IH].
  - by destruct x.
  - rewrite app_cons. simpl. by destruct (ascii_dec c c).
Qed.

Lemma length_slice_prefix s n :
  String.length (Py.slice s 0 (Some n)) = Nat.min n (String.length s).
Proof.
  by rewrite slice_prefix, length_of_list_ascii, length_take, length_list_ascii.
Qed.

(** ** KeyGen: sizes and collisions *)

Section KeyGenSizes.

Variable md5_hexdigest : string → string.

Abbreviation gen_table_key := (KeyGen.gen_table_key md5_hexdigest).
Abbreviation gen_multi_key := (KeyGen.gen_multi_key md5_hexdigest).

Lemma length_gen_table_key s :
  (∀ x, String.length (md5_hexdigest x) = 32) →
  String.length (gen_table_key s)
  = 9 + Nat.min 200 (String.length s)
    + (if 200 <? String.length s then 32 else 0).
Proof.
  intros Hlen. destruct (Nat.ltb_spec 200 (String.length s)) as [Hs|Hs].
  - rewrite gen_table_key_long by done.
    rewrite !length_app_str, Hlen, length_slice_prefix.
    change (String.length "jc_table_") with 9. lia.
  - rewrite gen_table_key_short by done. rewrite length_app_str.
    change (String.length "jc_table_") with 9. lia.
Qed.

(** X1: whatever the identifier, short or long, the table key has at most
    241 characters when the digest has the 32 digits of MD5. *)
Theorem gen_table_key_fits s :
  (∀ x, String.length (md5_hexdigest x) = 32) →
  String.length (gen_table_key s) ≤ 241.
Proof.
  intros Hlen. rewrite length_gen_table_key by done.
  destruct (200 <? String.length s); lia.
Qed.

(** X2: a combined key always has 41 characters, whatever the list of
    values, the empty list included. *)
Theorem gen_multi_key_length values :
  (∀ x, String.length (md5_hexdigest x) = 32) →
  String.length (gen_multi_key values) = 41.
Proof.
  intros Hlen. rewrite gen_multi_key_concat, length_app_str, Hlen. done.
Qed.

(** X3: an identifier of at most 200 characters shares its key with no
    other identifier, of any length. *)
Theorem short_identifier_owns_its_key t u :
  (∀ x, String.length (md5_hexdigest x) = 32) →
  String.length t ≤ 200 →
  gen_table_key t = gen_table_key u → t = u.
Proof.
  intros Hlen Ht Heq.
  destruct (Nat.ltb_spec 200 (String.length u)) as [Hu|Hu].
  - apply (f_equal String.length) in Heq.
    rewrite !length_gen_table_key in Heq by done.
    destruct (Nat.ltb_spec 200 (String.length t)); [lia|].
    destruct (Nat.ltb_spec 200 (String.length u)); lia.
  - by apply (short_table_keys_inj md5_hexdigest).
Qed.

(** X4: two identifiers of more than 200 characters share a key exactly
    when their first 200 characters agree and the digests of what follows
    agree. *)
Theorem long_identifiers_share_key_iff s s' :
  200 < String.length s → 200 < String.length s' →
  gen_table_key s = gen_table_key s'
  ↔ Py.slice s 0 (Some 200) = Py.slice s' 0 (Some 200)
    ∧ md5_hexdigest (Py.slice s 200 None) = md5_hexdigest (Py.slice s' 200 None).
Proof.
  intros Hs Hs'. rewrite !gen_table_key_long by done. split.
  - intros Heq. apply (inj (String.app "jc_table_")) in Heq.
    apply app_inj_length in Heq; [done|].
    rewrite !length_slice_prefix. lia.
  - by intros [-> ->].
Qed.

End KeyGenSizes.

(** ** KeyHandler: effects of the calls *)

Section KeyHandlerEffects.

Variable md5_hexdigest : string → string.
Variable uuid4 : nat → string.

Abbreviation gen_table_key := (KeyGen.gen_table_key md5_hexdigest).
Abbreviation gen_multi_key := (KeyGen.gen_multi_key md5_hexdigest).
Abbreviation get_single_generation :=
  (KeyHandler.get_single_generation md5_hexdigest uuid4).
Abbreviation collect_generations :=
  (KeyHandler.collect_generations md5_hexdigest uuid4).
Abbreviation get_multi_generation :=
  (KeyHandler.get_multi_generation md5_hexdigest uuid4).
Abbreviation invalidate_table :=
  (KeyHandler.invalidate_table md5_hexdigest uuid4).
Abbreviation get_generation := (KeyHandler.get_generation md5_hexdigest uuid4).
Abbreviation token := (Run.token md5_hexdigest uuid4).
Abbreviation publish := (Run.publish md5_hexdigest uuid4).
Abbreviation read_generations := (Run.read_generations md5_hexdigest).
Abbreviation generation_values := (Run.generation_values md5_hexdigest).
Abbreviation perform := (Run.perform md5_hexdigest uuid4).
Abbreviation run := (Run.run md5_hexdigest uuid4).
Abbreviation writes_from := (Run.writes_from md5_hexdigest uuid4).
Abbreviation coherent := (Run.coherent md5_hexdigest uuid4).
Abbreviation fresh_run := (Run.fresh_run md5_hexdigest uuid4).

(** *** Every call is a sequence of draws stored under namespaced keys *)

Lemma namespaced_table_key table : namespaced (gen_table_key table) = true.
Proof.
  unfold namespaced, KeyGen.gen_table_key, Py.format_s.
  by rewrite prefix_app.
Qed.

Lemma namespaced_multi_key values : namespaced (gen_multi_key values) = true.
Proof.
  unfold namespaced. rewrite gen_multi_key_concat, (prefix_app "jc_multi_").
  apply orb_true_r.
Qed.

Lemma writes_from_trans w1 w2 w3 :
  writes_from w1 w2 → writes_from w2 w3 → writes_from w1 w3.
Proof.
  intros H12 H23. induction H23 as [|w' key _ IH Hkey]; [done|].
  by constructor.
Qed.

Lemma get_single_writes table w :
  writes_from w (get_single_generation table w).2.
Proof.
  destruct (cache w !! gen_table_key table) as [val|] eqn:E.
  - rewrite (get_single_hit _ _ _ _ _ E). constructor.
  - rewrite (get_single_miss _ _ _ _ E). simpl.
    constructor; [constructor | apply namespaced_table_key].
Qed.

Lemma invalidate_writes table w :
  writes_from w (invalidate_table table w).2.
Proof.
  rewrite invalidate_publishes. simpl.
  constructor; [constructor | apply namespaced_table_key].
Qed.

Lemma collect_writes tables : ∀ generations w,
  writes_from w (collect_generations tables generations w).2.
Proof.
  induction tables as [|t tables IH]; intros generations w; [constructor|].
  simpl. pose proof (get_single_writes t w) as Hstep.
  destruct (get_single_generation t w) as [val w1]. simpl in Hstep.
  eapply writes_from_trans; [exact Hstep | apply IH].
Qed.

Lemma get_multi_writes tables w :
  writes_from w (get_multi_generation tables w).2.
Proof.
  pose proof (collect_writes tables [] w) as Hc.
  destruct (collect_generations tables [] w) as [gens w1] eqn:Ec.
  simpl in Hc.
  destruct (cache w1 !! gen_multi_key gens) as [val|] eqn:E.
  - by rewrite (get_multi_hit _ _ _ _ _ _ _ Ec E).
  - rewrite (get_multi_miss _ _ _ _ _ _ Ec E). simpl.
    constructor; [done | apply namespaced_multi_key].
Qed.

Lemma perform_writes o w : writes_from w (perform w o).
Proof.
  destruct o as [t|ts|t|ts]; simpl.
  - apply get_single_writes.
  - apply get_multi_writes.
  - apply invalidate_writes.
  - rewrite get_generation_world. constructor.
Qed.

Lemma run_writes history : ∀ w, writes_from w (run history w).
Proof.
  induction history as [|o history IH]; intros w; [constructor|].
  simpl. eapply writes_from_trans; [apply perform_writes | apply IH].
Qed.

Lemma writes_from_accounting w w' :
  writes_from w w' →
  length (sets w') + drawn w = length (sets w) + drawn w'.
Proof.
  induction 1 as [|w' key _ IH _]; [done|].
  simpl. rewrite length_app. simpl. lia.
Qed.

Lemma writes_from_keeps_slots w w' k :
  writes_from w w' → is_Some (cache w !! k) → is_Some (cache w' !! k).
Proof.
  induction 1 as [|w' key _ IH _]; [done|]. intros Hk. simpl.
  rewrite lookup_insert. case_decide; [by eexists | by apply IH].
Qed.

Lemma writes_from_namespaced w w' :
  writes_from w w' →
  (∀ k, is_Some (cache w !! k) → namespaced k = true) →
  Forall (λ kv, namespaced kv.1 = true) (sets w) →
  (∀ k, is_Some (cache w' !! k) → namespaced k = true)
  ∧ Forall (λ kv, namespaced kv.1 = true) (sets w').
Proof.
  induction 1 as [|w' key _ IH Hkey]; [done|]. intros Hc Hs.
  destruct (IH Hc Hs) as [Hc' Hs']. split.
  - intros k. simpl. rewrite lookup_insert.
    case_decide; [by subst | apply Hc'].
  - simpl. apply Forall_app. split; [done|]. by constructor.
Qed.

(** *** Single lookups *)

(** X5: a lookup repeated on any world returns the same value and leaves
    the world as the first lookup left it. *)
Theorem get_single_generation_idempotent table w :
  get_single_generation table (get_single_generation table w).2
  = get_single_generation table w.
Proof.
  pose proof (get_single_stored md5_hexdigest uuid4 table w) as Hst.
  destruct (get_single_generation table w) as [val w1]. simpl in *.
  by apply get_single_hit.
Qed.

(** X6: a lookup keeps every entry the store had, leaves the keys of other
    tables alone, and makes no [set] call or exactly one, on the key of
    its table with the value it returns. *)
Theorem get_single_generation_frame table w :
  let r := get_single_generation table w in
  cache w ⊆ cache r.2
  ∧ (∀ k, k ≠ gen_table_key table → cache r.2 !! k = cache w !! k)
  ∧ (sets r.2 = sets w ∨ sets r.2 = sets w ++ [(gen_table_key table, r.1)]).
Proof.
  intros r. split; [apply get_single_keeps|]. subst r.
  destruct (cache w !! gen_table_key table) as [val|] eqn:E.
  - rewrite (get_single_hit _ _ _ _ _ E). split; [done | by left].
  - rewrite (get_single_miss _ _ _ _ E). simpl. split; [|by right].
    intros k Hk. by apply lookup_insert_ne.
Qed.

(** *** Combined lookups *)

Lemma concat_read_generations tables w :
  String.concat "" (read_generations tables w)
  = String.concat "" (generation_values tables w).
Proof.
  induction tables as [|t tables IH]; [done|].
  unfold Run.read_generations, Run.generation_values in *.
  cbn [flat_map map]. by rewrite concat_app, concat_chars, concat_cons, IH.
Qed.

Lemma collect_drawn_bound tables : ∀ generations w,
  drawn (collect_generations tables generations w).2
  ≤ drawn w + length tables.
Proof.
  induction tables as [|t tables IH]; intros generations w; simpl; [lia|].
  destruct (cache w !! gen_table_key t) as [val|] eqn:E.
  - rewrite (get_single_hit _ _ _ _ _ E).
    specialize (IH (generations ++ Py.chars val) w). lia.
  - rewrite (get_single_miss _ _ _ _ E).
    specialize (IH (generations ++ Py.chars (token (drawn w)))
                   (publish (gen_table_key t) w)).
    simpl in IH. lia.
Qed.

(** X7: after a combined lookup the returned value sits under the key
    derived from the whole generation values of the tables, in the order
    given: collecting them character by character does not show in the
    key. *)
Theorem combined_slot_of_whole_values tables w :
  let r := get_multi_generation tables w in
  cache r.2 !! gen_multi_key (generation_values tables r.2) = Some r.1.
Proof.
  intros r. destruct (get_multi_spec md5_hexdigest uuid4 tables w) as (_ & Hk & _).
  fold r in Hk. rewrite <- Hk. f_equal.
  rewrite !gen_multi_key_concat. by rewrite concat_read_generations.
Qed.

(** X8: a combined lookup over [n] tables never replaces an entry of the
    store, makes at most [n + 1] [set] calls, and a second lookup right
    after it makes none. *)
Theorem get_multi_generation_effects tables w :
  let r := get_multi_generation tables w in
  cache w ⊆ cache r.2
  ∧ length (sets r.2) ≤ length (sets w) + length tables + 1
  ∧ sets (get_multi_generation tables r.2).2 = sets r.2.
Proof.
  intros r. split; [apply get_multi_spec|]. split.
  - pose proof (writes_from_accounting _ _ (get_multi_writes tables w)) as Hacc.
    fold r in Hacc.
    assert (drawn r.2 ≤ drawn w + length tables + 1); [|lia].
    subst r. pose proof (collect_drawn_bound tables [] w) as Hb.
    destruct (collect_generations tables [] w) as [gens w1] eqn:Ec.
    simpl in Hb.
    destruct (cache w1 !! gen_multi_key gens) as [val|] eqn:E.
    + rewrite (get_multi_hit _ _ _ _ _ _ _ Ec E). simpl. lia.
    + rewrite (get_multi_miss _ _ _ _ _ _ Ec E). simpl. lia.
  - subst r. by rewrite get_multi_again.
Qed.

(** X9: invalidating a table whose key is the key of none of the tables of
    a combined lookup leaves the combined generation as it was. *)
Theorem unrelated_invalidation_keeps_multi_generation tables t w :
  (∀ x, x ∈ tables → gen_table_key x ≠ gen_table_key t) →
  let r1 := get_multi_generation tables w in
  let r2 := invalidate_table t r1.2 in
  let r3 := get_multi_generation tables r2.2 in
  r3.1 = r1.1.
Proof.
  intros Hother r1 r2 r3.
  destruct (get_multi_spec md5_hexdigest uuid4 tables w) as (_ & Hk & _ & Hall & _).
  fold r1 in Hk, Hall.
  assert (∀ x, x ∈ tables →
            cache r2.2 !! gen_table_key x = cache r1.2 !! gen_table_key x)
    as Hsame.
  { intros x Hx. subst r2. rewrite invalidate_publishes. simpl.
    apply lookup_insert_ne. intros E. by apply (Hother x Hx). }
  assert (get_multi_generation tables r2.2 = (r1.1, r2.2)) as Hr3.
  { eapply get_multi_hit.
    - apply collect_hits. intros x Hx. rewrite Hsame by done. by apply Hall.
    - rewrite app_nil_l, (read_generations_ext _ _ r1.2 r2.2) by done.
      subst r2. rewrite invalidate_publishes. simpl.
      rewrite lookup_insert_ne; [done|]. intros E.
      exact (table_key_not_multi _ _ _ E). }
  subst r3. by rewrite Hr3.
Qed.

(** *** Histories of calls *)

Lemma perform_read_keeps o w :
  is_read o = true → cache w ⊆ cache (perform w o).
Proof.
  destruct o as [t|ts|t|ts]; simpl; intros Hread; try discriminate.
  - apply get_single_keeps.
  - apply get_multi_spec.
  - by rewrite get_generation_world.
Qed.

Lemma run_reads_keep history : ∀ w,
  forallb is_read history = true → cache w ⊆ cache (run history w).
Proof.
  induction history as [|o history IH]; intros w Hread; [done|].
  simpl in *. apply andb_prop in Hread as [Ho Hrest].
  etrans; [by apply perform_read_keeps | by apply IH].
Qed.


(** X11: no call ever removes a key: a slot present in a world is present
    after any history of calls. *)
Theorem slots_are_never_deleted history w k :
  is_Some (cache w !! k) → is_Some (cache (run history w) !! k).
Proof. apply writes_from_keeps_slots, run_writes. Qed.

(** X12: started on an empty store, the handler only ever writes keys of
    its two namespaces: every [set] call made and every key the store
    holds begins with [jc_table_] or [jc_multi_]. *)
Theorem runs_write_only_namespaced_keys history :
  let w := run history empty_world in
  Forall (λ kv, namespaced kv.1 = true) (sets w)
  ∧ (∀ k, is_Some (cache w !! k) → namespaced k = true).
Proof.
  intros w.
  destruct (writes_from_namespaced _ _ (run_writes history empty_world))
    as [Hc Hs].
  - intros k [v Hv]. simpl in Hv. by rewrite lookup_empty in Hv.
  - constructor.
  - done.
Qed.

(** X13: a history without invalidations never changes the value of a
    slot that is filled: the store only grows. *)
Theorem reads_never_overwrite history w :
  forallb is_read history = true → cache w ⊆ cache (run history w).
Proof. apply run_reads_keep. Qed.

(** X14: the token returned by [invalidate_table t] is what
    [get_single_generation t] returns after any further history of
    lookups, single or combined, on any tables. *)
Theorem invalidation_survives_reads t history w :
  forallb is_read history = true →
  let r := invalidate_table t w in
  (get_single_generation t (run history r.2)).1 = r.1.
Proof.
  intros Hread r.
  erewrite get_single_hit; [done|].
  eapply lookup_weaken; [|by apply run_reads_keep].
  subst r. rewrite invalidate_publishes. simpl. apply lookup_insert_eq.
Qed.

(** X15: started on an empty store, and as long as the tokens drawn do not
    repeat, the store never holds one value in two slots, and every value
    it holds is a token drawn earlier in the run. *)
Theorem runs_keep_store_coherent history :
  let w := run history empty_world in
  NoDup (token <$> seq 0 (drawn w)) →
  Run.distinct_slots w
  ∧ (∀ k v, cache w !! k = Some v → ∃ i, i < drawn w ∧ v = token i).
Proof.
  intros w Hnd. apply NoDup_fresh_run in Hnd.
  apply (run_coherent _ _ (drawn w)); [done|done|apply empty_world_coherent].
Qed.

(** [get_generation] returns for no argument tuple: it raises
    [IndexError] when given no table and [TypeError] otherwise, and in
    both cases leaves the store and the random source untouched. *)
Theorem get_generation_never_returns tables w :
  get_generation tables w
  = (Raise (if decide (tables = []) then IndexError else TypeError), w).
Proof. by destruct tables as [|t [|t' tables]]. Qed.

(** *** Which combined generations an invalidation changes *)

Lemma concat_inj_blocks n : ∀ l1 l2 : list string,
  length l1 = length l2 →
  Forall (λ v, String.length v = n) l1 →
  Forall (λ v, String.length v = n) l2 →
  String.concat "" l1 = String.concat "" l2 → l1 = l2.
Proof.
  induction l1 as [|x l1 IH]; intros [|y l2] Hlen H1 H2 Heq;
    simpl in Hlen; try discriminate; [done|].
  apply Forall_cons in H1 as [Hx H1]. apply Forall_cons in H2 as [Hy H2].
  rewrite !concat_cons in Heq.
  apply app_inj_length in Heq as [-> Hrest]; [|congruence].
  f_equal. apply IH; [lia|done..].
Qed.

Lemma length_token i :
  (∀ x, String.length (md5_hexdigest x) = 32) → String.length (token i) = 32.
Proof. intros Hlen. apply Hlen. Qed.

Lemma generation_values_blocks tables w :
  (∀ x, String.length (md5_hexdigest x) = 32) →
  Run.issued md5_hexdigest uuid4 w →
  (∀ table, table ∈ tables → is_Some (cache w !! gen_table_key table)) →
  Forall (λ v, String.length v = 32) (generation_values tables w).
Proof.
  intros Hlen Hiss Hall. unfold Run.generation_values, cache_get.
  apply Forall_fmap, Forall_forall. intros table Hin. simpl.
  destruct (Hall table Hin) as [v Hv]. rewrite Hv. simpl.
  destruct (Hiss _ _ Hv) as (i & _ & ->). by apply length_token.
Qed.

Lemma generation_values_at tables w w' t :
  generation_values tables w = generation_values tables w' →
  t ∈ tables →
  default "" (cache w !! gen_table_key t)
  = default "" (cache w' !! gen_table_key t).
Proof.
  unfold Run.generation_values, cache_get.
  induction tables as [|x tables IH]; intros Heq Hin; [by inversion Hin|].
  simpl in Heq. injection Heq as Hx Hrest.
  apply elem_of_cons in Hin as [->|Hin]; [done | by apply IH].
Qed.

Lemma sensitivity_any_list tables t w :
  let r1 := get_multi_generation tables w in
  let r2 := invalidate_table t r1.2 in
  let r3 := get_multi_generation tables r2.2 in
  t ∈ tables →
  (∀ x, String.length (md5_hexdigest x) = 32) →
  coherent w →
  fresh_run (drawn r3.2) →
  (let g1 := String.concat "" (collect_generations tables [] w).1 in
   let g2 := String.concat "" (collect_generations tables [] r2.2).1 in
   md5_hexdigest g1 = md5_hexdigest g2 → g1 = g2) →
  r1.1 ≠ r3.1.
Proof.
  intros r1 r2 r3 Hin Hlen Hcoh Hfresh Hhash Heq.
  destruct (get_multi_spec md5_hexdigest uuid4 tables w)
    as (Hg1 & Hk1 & _ & Hall1 & Hd1).
  destruct (get_multi_spec md5_hexdigest uuid4 tables r2.2)
    as (Hg3 & Hk3 & Hsub3 & Hall3 & Hd3).
  fold r1 in Hg1, Hk1, Hall1, Hd1. fold r3 in Hg3, Hk3, Hsub3, Hall3, Hd3.
  assert (r2 = (token (drawn r1.2), publish (gen_table_key t) r1.2)) as Hr2
    by reflexivity.
  rewrite Hr2 in Hd3, Hsub3. simpl in Hd3, Hsub3.
  assert (coherent r1.2) as Hcoh1.
  { apply (get_multi_coherent _ _ (drawn r3.2)); [done|fold r1; lia|done]. }
  assert (coherent r3.2) as [Hdist3 Hiss3].
  { apply (get_multi_coherent _ _ (drawn r3.2)); [done|fold r3; lia|].
    rewrite Hr2. simpl.
    apply (publish_coherent _ _ (drawn r3.2)); [done|lia|done]. }
  destruct Hcoh1 as [_ Hiss1].
  assert (cache r3.2 !! gen_multi_key (read_generations tables r1.2)
          = Some r1.1) as Hk1'.
  { eapply lookup_weaken; [|exact Hsub3].
    rewrite lookup_insert_ne; [done|]. intros E.
    exact (table_key_not_multi _ _ _ E). }
  rewrite Heq in Hk1'.
  pose proof (Hdist3 _ _ _ Hk1' Hk3) as Hsame.
  rewrite !gen_multi_key_concat in Hsame.
  apply (inj (String.app "jc_multi_")) in Hsame.
  rewrite Hg1, Hg3 in Hhash. specialize (Hhash Hsame).
  rewrite !concat_read_generations in Hhash.
  apply (concat_inj_blocks 32) in Hhash.
  - pose proof (generation_values_at _ _ _ _ Hhash Hin) as Hat.
    destruct (Hall1 t Hin) as [go Ho].
    assert (cache r3.2 !! gen_table_key t = Some (token (drawn r1.2))) as Ho3.
    { eapply lookup_weaken; [|exact Hsub3]. apply lookup_insert_eq. }
    rewrite Ho, Ho3 in Hat. simpl in Hat.
    destruct (Hiss1 _ _ Ho) as (i & Hi & Htok).
    rewrite Hat in Htok. symmetry in Htok. apply Hfresh in Htok; lia.
  - unfold Run.generation_values. by rewrite !length_map.
  - by apply generation_values_blocks.
  - by apply generation_values_blocks.
Qed.

(** X16: after any history of calls on an empty store, invalidating any
    table of a list, wherever it stands in it and however often, changes
    the combined generation of the list, as long as the tokens drawn do
    not repeat and md5, with its 32 digits, does not collide on the two
    texts hashed into the combined keys. *)
Theorem invalidation_changes_every_multi_generation history tables t :
  let w := run history empty_world in
  let r1 := get_multi_generation tables w in
  let r2 := invalidate_table t r1.2 in
  let r3 := get_multi_generation tables r2.2 in
  t ∈ tables →
  (∀ x, String.length (md5_hexdigest x) = 32) →
  NoDup (token <$> seq 0 (drawn r3.2)) →
  (let g1 := String.concat "" (collect_generations tables [] w).1 in
   let g2 := String.concat "" (collect_generations tables [] r2.2).1 in
   md5_hexdigest g1 = md5_hexdigest g2 → g1 = g2) →
  r1.1 ≠ r3.1.
Proof.
  intros w r1 r2 r3 Hin Hlen Hnd Hhash.
  apply NoDup_fresh_run in Hnd.
  apply sensitivity_any_list; [done|done| |done|done].
  apply (run_coherent _ _ (drawn r3.2)); [done| |apply empty_world_coherent].
  assert (drawn w ≤ drawn r1.2) as Hd1 by apply get_multi_spec.
  assert (drawn r2.2 ≤ drawn r3.2) as Hd3 by apply get_multi_spec.
  assert (drawn r2.2 = S (drawn r1.2)) as Hd2 by reflexivity.
  change (drawn w ≤ drawn r3.2). lia.
Qed.

(** X17: the order of the tables matters: after any history of calls on
    an empty store, two tables with different keys asked for in the two
    orders get different combined generations, as long as the tokens
    drawn do not repeat and md5, with its 32 digits, does not collide on
    the two texts hashed into the combined keys. *)
Theorem table_order_matters history u o :
  let w := run history empty_world in
  let r1 := get_multi_generation [u; o] w in
  let r2 := get_multi_generation [o; u] r1.2 in
  gen_table_key u ≠ gen_table_key o →
  (∀ x, String.length (md5_hexdigest x) = 32) →
  NoDup (token <$> seq 0 (drawn r2.2)) →
  (let g1 := String.concat "" (collect_generations [u; o] [] w).1 in
   let g2 := String.concat "" (collect_generations [o; u] [] r1.2).1 in
   md5_hexdigest g1 = md5_hexdigest g2 → g1 = g2) →
  r1.1 ≠ r2.1.
Proof.
  intros w r1 r2 Hkeys Hlen Hnd Hhash Heq.
  apply NoDup_fresh_run in Hnd.
  destruct (get_multi_spec md5_hexdigest uuid4 [u; o] w)
    as (Hg1 & Hk1 & _ & Hall1 & Hd1).
  destruct (get_multi_spec md5_hexdigest uuid4 [o; u] r1.2)
    as (Hg2 & Hk2 & Hsub2 & _ & Hd2).
  fold w in Hg1, Hd1. fold r1 in Hg1, Hk1, Hall1, Hd1, Hg2, Hsub2.
  fold r2 in Hg2, Hk2, Hsub2, Hd2.
  assert (coherent w) as Hcoh.
  { apply (run_coherent _ _ (drawn r2.2)); [done| |apply empty_world_coherent].
    change (drawn w ≤ drawn r2.2). lia. }
  assert (coherent r1.2) as [Hdist1 Hiss1].
  { apply (get_multi_coherent _ _ (drawn r2.2)); [done|fold r1; lia|done]. }
  assert (coherent r2.2) as [Hdist2 _].
  { apply (get_multi_coherent _ _ (drawn r2.2)); [done|fold r2; lia|done]. }
  pose proof (lookup_weaken _ _ _ _ Hk1 Hsub2) as Hk1'.
  rewrite Heq in Hk1'.
  pose proof (Hdist2 _ _ _ Hk1' Hk2) as Hsame.
  rewrite !gen_multi_key_concat in Hsame.
  apply (inj (String.app "jc_multi_")) in Hsame.
  rewrite Hg1, Hg2 in Hhash. specialize (Hhash Hsame).
  destruct (Hall1 u) as [gu Hu]; [set_solver|].
  destruct (Hall1 o) as [go Ho]; [set_solver|].
  pose proof (lookup_weaken _ _ _ _ Hu Hsub2) as Hu2.
  pose proof (lookup_weaken _ _ _ _ Ho Hsub2) as Ho2.
  rewrite (read_two_generations _ _ _ _ _ _ Hu Ho) in Hhash.
  rewrite (read_two_generations _ _ _ _ _ _ Ho2 Hu2) in Hhash.
  apply app_inj_length in Hhash as [Hvals _].
  - subst go. by apply Hkeys, (Hdist1 _ _ gu).
  - destruct (Hiss1 _ _ Hu) as (i & _ & ->).
    destruct (Hiss1 _ _ Ho) as (j & _ & ->).
    by rewrite !length_token.
Qed.

End KeyHandlerEffects.

(** ** The further properties on concrete runs *)

Lemma gen_table_key_fits_witness :
  String.length (KeyGen.gen_table_key MD5.hexdigest "auth_user") ≤ 241.
Proof.
  apply (gen_table_key_fits MD5.hexdigest). exact length_md5_hexdigest.
Defined.

Lemma gen_multi_key_length_witness :
  String.length
    (KeyGen.gen_multi_key MD5.hexdigest
       ["6cb675e97a5dfc017d8ba67b37d44fb1"; "bda20a5931307c8c9ed7ad0ef5cf59d6"])
  = 41.
Proof.
  apply (gen_multi_key_length MD5.hexdigest). exact length_md5_hexdigest.
Defined.

Lemma short_identifier_owns_its_key_witness :
  String.length "users" ≤ 200
  ∧ KeyGen.gen_table_key MD5.hexdigest "users"
    = KeyGen.gen_table_key MD5.hexdigest "users"
  ∧ "users" = "users".
Proof.
  assert (String.length "users" ≤ 200) as Hlen by (simpl; lia).
  split; [exact Hlen|]. split; [reflexivity|].
  apply (short_identifier_owns_its_key MD5.hexdigest "users" "users").
  - exact length_md5_hexdigest.
  - exact Hlen.
  - reflexivity.
Defined.

Lemma long_identifiers_share_key_iff_witness :
  let s := String.string_of_list_ascii (repeat "x"%char 230) in
  let s' := String.string_of_list_ascii (repeat "x"%char 200 ++ repeat "y"%char 30) in
  200 < String.length s ∧ 200 < String.length s'
  ∧ (KeyGen.gen_table_key MD5.hexdigest s = KeyGen.gen_table_key MD5.hexdigest s'
     ↔ Py.slice s 0 (Some 200) = Py.slice s' 0 (Some 200)
       ∧ MD5.hexdigest (Py.slice s 200 None) = MD5.hexdigest (Py.slice s' 200 None)).
Proof.
  intros s s'.
  assert (200 < String.length s) as Hs by (apply Nat.ltb_lt; vm_compute; reflexivity).
  assert (200 < String.length s') as Hs' by (apply Nat.ltb_lt; vm_compute; reflexivity).
  split; [exact Hs|]. split; [exact Hs'|].
  exact (long_identifiers_share_key_iff MD5.hexdigest s s' Hs Hs').
Defined.

Lemma unrelated_invalidation_keeps_multi_generation_witness :
  let tables := ["users"; "orders"] in
  let r1 := KeyHandler.get_multi_generation MD5.hexdigest sample_uuid4 tables empty_world in
  let r2 := KeyHandler.invalidate_table MD5.hexdigest sample_uuid4 "items" r1.2 in
  let r3 := KeyHandler.get_multi_generation MD5.hexdigest sample_uuid4 tables r2.2 in
  r3.1 = r1.1.
Proof.
  apply (unrelated_invalidation_keeps_multi_generation MD5.hexdigest sample_uuid4).
  intros x Hx. apply list_elem_of_In in Hx. simpl in Hx.
  destruct Hx as [<-|[<-|[]]]; vm_compute; intros E; discriminate E.
Defined.

Lemma slots_are_never_deleted_witness :
  let w := (KeyHandler.invalidate_table MD5.hexdigest sample_uuid4 "users" empty_world).2 in
  let history := [Invalidate "orders"; GetMulti ["users"; "orders"]] in
  is_Some (cache w !! "jc_table_users")
  ∧ is_Some (cache (Run.run MD5.hexdigest sample_uuid4 history w) !! "jc_table_users").
Proof.
  intros w history.
  assert (is_Some (cache w !! "jc_table_users")) as Hk.
  { eexists. vm_compute. reflexivity. }
  split; [exact Hk|].
  exact (slots_are_never_deleted MD5.hexdigest sample_uuid4 history w _ Hk).
Defined.

Lemma reads_never_overwrite_witness :
  let history := [GetSingle "users"; GetMulti ["users"; "orders"]; GetGeneration ["users"]] in
  let w := (KeyHandler.invalidate_table MD5.hexdigest sample_uuid4 "users" empty_world).2 in
  forallb is_read history = true
  ∧ cache w ⊆ cache (Run.run MD5.hexdigest sample_uuid4 history w).
Proof.
  intros history w. split; [reflexivity|].
  apply (reads_never_overwrite MD5.hexdigest sample_uuid4). reflexivity.
Defined.

Lemma invalidation_survives_reads_witness :
  let history := [GetMulti ["users"; "orders"]; GetSingle "orders"] in
  let r := KeyHandler.invalidate_table MD5.hexdigest sample_uuid4 "users" empty_world in
  forallb is_read history = true
  ∧ (KeyHandler.get_single_generation MD5.hexdigest sample_uuid4 "users"
       (Run.run MD5.hexdigest sample_uuid4 history r.2)).1 = r.1.
Proof.
  intros history r. split; [reflexivity|].
  apply (invalidation_survives_reads MD5.hexdigest sample_uuid4). reflexivity.
Defined.

Lemma runs_keep_store_coherent_witness :
  let history := [GetMulti ["users"; "orders"]; Invalidate "users"; GetSingle "users"] in
  let w := Run.run MD5.hexdigest sample_uuid4 history empty_world in
  NoDup (Run.token MD5.hexdigest sample_uuid4 <$> seq 0 (drawn w))
  ∧ Run.distinct_slots w.
Proof.
  intros history w.
  assert (NoDup (Run.token MD5.hexdigest sample_uuid4 <$> seq 0 (drawn w))) as Hnd.
  { apply (bool_decide_unpack _). vm_compute. exact I. }
  split; [exact Hnd|].
  exact (proj1 (runs_keep_store_coherent MD5.hexdigest sample_uuid4 history Hnd)).
Defined.

Lemma invalidation_changes_every_multi_generation_witness :
  let tables := ["users"; "orders"; "users"] in
  let history := [GetSingle "orders"] in
  let w := Run.run MD5.hexdigest sample_uuid4 history empty_world in
  let r1 := KeyHandler.get_multi_generation MD5.hexdigest sample_uuid4 tables w in
  let r2 := KeyHandler.invalidate_table MD5.hexdigest sample_uuid4 "users" r1.2 in
  let r3 := KeyHandler.get_multi_generation MD5.hexdigest sample_uuid4 tables r2.2 in
  "users" ∈ tables
  ∧ NoDup (Run.token MD5.hexdigest sample_uuid4 <$> seq 0 (drawn r3.2))
  ∧ r1.1 ≠ r3.1.
Proof.
  intros tables history w r1 r2 r3.
  assert ("users" ∈ tables) as Hin by (subst tables; set_solver).
  assert (NoDup (Run.token MD5.hexdigest sample_uuid4 <$> seq 0 (drawn r3.2)))
    as Hnd.
  { apply (bool_decide_unpack _). vm_compute. exact I. }
  split; [exact Hin|]. split; [exact Hnd|].
  apply (invalidation_changes_every_multi_generation
           MD5.hexdigest sample_uuid4 history tables "users").
  - exact Hin.
  - exact length_md5_hexdigest.
  - exact Hnd.
  - vm_compute. intros E. discriminate E.
Defined.

Lemma table_order_matters_witness :
  let w := Run.run MD5.hexdigest sample_uuid4 [Invalidate "users"] empty_world in
  let r1 := KeyHandler.get_multi_generation MD5.hexdigest sample_uuid4 ["users"; "orders"] w in
  let r2 := KeyHandler.get_multi_generation MD5.hexdigest sample_uuid4 ["orders"; "users"] r1.2 in
  KeyGen.gen_table_key MD5.hexdigest "users" ≠ KeyGen.gen_table_key MD5.hexdigest "orders"
  ∧ NoDup (Run.token MD5.hexdigest sample_uuid4 <$> seq 0 (drawn r2.2))
  ∧ r1.1 ≠ r2.1.
Proof.
  intros w r1 r2.
  assert (KeyGen.gen_table_key MD5.hexdigest "users"
          ≠ KeyGen.gen_table_key MD5.hexdigest "orders") as Hkeys.
  { vm_compute. intros E. discriminate E. }
  assert (NoDup (Run.token MD5.hexdigest sample_uuid4 <$> seq 0 (drawn r2.2)))
    as Hnd.
  { apply (bool_decide_unpack _). vm_compute. exact I. }
  split; [exact Hkeys|]. split; [exact Hnd|].
  apply (table_order_matters MD5.hexdigest sample_uuid4 [Invalidate "users"]
           "users" "orders").
  - exact Hkeys.
  - exact length_md5_hexdigest.
  - exact Hnd.
  - vm_compute. intros E. discriminate E.
Defined.
